(** * The layered user-management example (user_good_example.cpp)

    A shallow embedding of the [User] record, the in-memory repository, the
    validator, the presenter and the orchestrating [UserService], followed by
    the properties of the service that the specification states.

    Conventions of the embedding:
    - [std::string] is [string] (a sequence of bytes), [std::string::npos]
      is [None];
    - [std::map<std::string, User>] is [gmap string User];
    - a C++ exception is a value of [exception]; a member function that may
      throw and that reads or writes the repository is a computation in the
      monad [M], which threads the map and stops at the first throw, leaving
      the map as it was at the throw;
    - a [User*] returned by [findById] points into the map: it is modelled
      by the key of the node it designates, so that a write through the
      pointer is a write to the map;
    - the three abstract classes are records of functions, and
      [UserService] is defined over any three of them, as its constructor
      takes them by reference;
    - the traces written to [std::cout] are not part of the model. *)

From Stdlib Require Import Ascii String.
From stdpp Require Import base option gmap strings.

Local Open Scope string_scope.

(** ** Characters that cannot be written inside a string literal *)

(** The double quote, written backslash-quote in the C++ literals. *)
Definition dq : ascii := "034"%char.
(** The backslash. *)
Definition bs : ascii := "092"%char.
(** The line feed, written backslash-n in the C++ literals. *)
Definition lf : ascii := "010"%char.

Definition DQ : string := String dq "".
Definition LF : string := String lf "".

(** ** [struct User] *)

Record User := mkUser {
  id : string;
  name : string;
  email : string;
  isActive : bool
}.

(** [User()], the default constructor that [std::map::operator[]] uses. *)
Definition User_default : User := mkUser "" "" "" true.

(** [User(id, name, email)], with the default argument [isActive = true]. *)
Definition User_new (i n e : string) : User := mkUser i n e true.

(** [user->isActive = b]. *)
Definition set_isActive (b : bool) (u : User) : User :=
  mkUser (id u) (name u) (email u) b.

(** ** Exceptions and the repository monad *)

Inductive exception :=
  | invalid_argument (what : string)
  | out_of_range (what : string).

Inductive outcome (A : Type) :=
  | Return (a : A)
  | Throw (e : exception).
Arguments Return {A} a.
Arguments Throw {A} e.

Abbreviation store := (gmap string User).

Definition M (A : Type) : Type := store -> outcome A * store.

Global Instance M_ret : MRet M := fun A (a : A) users => (Return a, users).

Definition throw {A} (e : exception) : M A := fun users => (Throw e, users).

Global Instance M_bind : MBind M := fun A B (k : A -> M B) (m : M A) users =>
  match m users with
  | (Return a, users') => k a users'
  | (Throw e, users') => (Throw e, users')
  end.

(** A call of a function that touches no repository and may throw. *)
Definition lift {A} (o : outcome A) : M A := fun users => (o, users).

(** ** [std::string::find(char)] *)

(** Index of the first occurrence of [c], [None] for [npos]. *)
Fixpoint find (c : ascii) (s : string) : option nat :=
  match s with
  | EmptyString => None
  | String d r => if Ascii.eqb d c then Some 0 else S <$> find c r
  end.

(** [s.empty()]. *)
Definition empty (s : string) : bool :=
  match s with
  | EmptyString => true
  | String _ _ => false
  end.

(** ** Pointers to stored users *)

(** A [User*] into the map, [None] for [nullptr]. *)
Definition ptr := option string.

(** [users[k]] read as a value: the element at [k], default-constructed
    when [k] was absent. *)
Definition subscript (users : store) (k : string) : User :=
  default User_default (users !! k).

(** [*p] for a non-null pointer [p] to the node of key [k]. *)
Definition deref (k : string) : M User :=
  fun users => (Return (subscript users k), users).

(** [p->isActive = b] for a non-null pointer [p] to the node of key [k]. *)
Definition write_isActive (k : string) (b : bool) : M unit :=
  fun users => (Return tt, alter (set_isActive b) k users).

(** ** The three interfaces *)

Record IUserRepository := {
  save : User -> M User;
  findById : string -> M ptr
}.

(** [validate] throws when the user is invalid. *)
Record IUserValidator := {
  validate : User -> outcome unit
}.

Record IUserPresenter := {
  formatForConsole : User -> string;
  formatForJson : User -> string
}.

(** ** [class InMemoryUserRepository] *)

Module InMemoryUserRepository.

(** [users[user.id] = user; return users[user.id];]  The argument is a
    reference; when it designates the node of key [user.id] itself the
    assignment is a self-assignment, so the value read is the same. *)
Definition save (user : User) : M User :=
  fun users =>
    let users' := <[id user := user]> users in
    (Return (subscript users' (id user)), users').

(** [users.find(userId)], then the address of the node or [nullptr]. *)
Definition findById (userId : string) : M ptr :=
  fun users =>
    match users !! userId with
    | Some _ => (Return (Some userId), users)
    | None => (Return None, users)
    end.

Definition impl : IUserRepository := Build_IUserRepository save findById.

End InMemoryUserRepository.

(** ** [class UserValidatorImpl] *)

Module UserValidatorImpl.

Definition validate (user : User) : outcome unit :=
  if empty (name user) then
    Throw (invalid_argument "Validation Error: User name cannot be blank.")
  else if bool_decide (find "@" (email user) = None)
          || bool_decide (find "." (email user) = None) then
    Throw (invalid_argument
             ("Validation Error: Invalid email format for "
                +:+ email user +:+ "."))
  else Return tt.

Definition impl : IUserValidator := Build_IUserValidator validate.

End UserValidatorImpl.

(** ** [class UserPresenterImpl] *)

Module UserPresenterImpl.

Definition formatForConsole (user : User) : string :=
  let status := if isActive user then "Active" else "Inactive" in
  "User ID: " +:+ id user +:+ LF +:+ "Name: " +:+ name user +:+ LF
    +:+ "Email: " +:+ email user +:+ LF +:+ "Status: " +:+ status.

Definition formatForJson (user : User) : string :=
  "{" +:+ DQ +:+ "id" +:+ DQ +:+ ":" +:+ DQ +:+ id user +:+ DQ
    +:+ ", " +:+ DQ +:+ "name" +:+ DQ +:+ ":" +:+ DQ +:+ name user +:+ DQ
    +:+ ", " +:+ DQ +:+ "email" +:+ DQ +:+ ":" +:+ DQ +:+ email user +:+ DQ
    +:+ ", " +:+ DQ +:+ "active" +:+ DQ +:+ ":"
    +:+ (if isActive user then "true" else "false") +:+ "}".

Definition impl : IUserPresenter :=
  Build_IUserPresenter formatForConsole formatForJson.

End UserPresenterImpl.

(** ** [class UserService] *)

Module UserService.
Section UserService.

Variable userRepository : IUserRepository.
Variable userValidator : IUserValidator.
Variable userPresenter : IUserPresenter.

Definition createUser (i n e : string) : M User :=
  let newUser := User_new i n e in
  lift (validate userValidator newUser) ;;
  save userRepository newUser.

Definition getFormattedUserDetails (userId format : string) : M string :=
  user ← findById userRepository userId;
  match user with
  | None => throw (out_of_range ("User with ID " +:+ userId +:+ " not found."))
  | Some p =>
      u ← deref p;
      if bool_decide (format = "console") then
        mret (formatForConsole userPresenter u)
      else if bool_decide (format = "json") then
        mret (formatForJson userPresenter u)
      else throw (invalid_argument ("Unsupported format: " +:+ format))
  end.

(** The call that leaves out the second argument, whose default value is
    ["console"]. *)
Definition getFormattedUserDetails_default (userId : string) : M string :=
  getFormattedUserDetails userId "console".

Definition activateUser (userId : string) : M User :=
  user ← findById userRepository userId;
  match user with
  | None => throw (out_of_range ("User with ID " +:+ userId +:+ " not found."))
  | Some p =>
      write_isActive p true ;;
      u ← deref p;
      save userRepository u
  end.

End UserService.
End UserService.

(** ** The service of [runGoodUserExample]

    [UserService userService(userRepository, userValidator, userPresenter)]
    over the three concrete classes. *)

Module userService.

Definition createUser : string -> string -> string -> M User :=
  UserService.createUser InMemoryUserRepository.impl UserValidatorImpl.impl.

Definition getFormattedUserDetails : string -> string -> M string :=
  UserService.getFormattedUserDetails
    InMemoryUserRepository.impl UserPresenterImpl.impl.

Definition getFormattedUserDetails_default : string -> M string :=
  UserService.getFormattedUserDetails_default
    InMemoryUserRepository.impl UserPresenterImpl.impl.

Definition activateUser : string -> M User :=
  UserService.activateUser InMemoryUserRepository.impl.

End userService.

(** ** Sequences of service calls *)

Inductive request :=
  | CreateUser (i n e : string)
  | GetFormattedUserDetails (userId format : string)
  | ActivateUser (userId : string).

(** The map after one call, whether it returned or threw. *)
Definition serve (users : store) (r : request) : store :=
  match r with
  | CreateUser i n e => (userService.createUser i n e users).2
  | GetFormattedUserDetails userId format =>
      (userService.getFormattedUserDetails userId format users).2
  | ActivateUser userId => (userService.activateUser userId users).2
  end.

(** The map after a sequence of calls on a repository that starts empty. *)
Definition run (rs : list request) : store := foldl serve ∅ rs.

(** ** The specification's vocabulary *)

(** [s] contains the character [c]. *)
Definition contains (c : ascii) (s : string) : Prop :=
  ∃ a b, s = a +:+ String c b.

(** The email shape of the specification: an "@" and, after it, a ".". *)
Definition at_then_dot (e : string) : Prop :=
  ∃ a b c, e = a +:+ String "@" (b +:+ String "." c).

(** A valid (name, email) pair, in the specification's words: a non-empty
    name and an email containing "@" then ".". *)
Definition valid_pair (n e : string) : Prop :=
  n ≠ "" ∧ at_then_dot e.

(** Decision procedures for the two shapes. *)
Fixpoint containsb (c : ascii) (s : string) : bool :=
  match s with
  | EmptyString => false
  | String d r => Ascii.eqb d c || containsb c r
  end.

Fixpoint at_then_dotb (e : string) : bool :=
  match e with
  | EmptyString => false
  | String d r => if Ascii.eqb d "@" then containsb "." r else at_then_dotb r
  end.

(** ** Reading a JSON text back

    The repository prints JSON and never reads it.  To state what reading
    the printed text back yields, this is a reader for the fragment of the
    JSON grammar (RFC 8259) that a user object lives in: one object whose
    members are strings or the literals [true] and [false], with insignificant
    white space, the two-character escapes, and [\uXXXX] escapes of ASCII
    code points.  A JSON text is UTF-8 (RFC 8259, section 8.1): a text that
    is not well-formed UTF-8 (RFC 3629: no overlong form, no surrogate,
    nothing above U+10FFFF) is refused, as is anything outside the
    fragment, with [None]. *)

Module Json.

Inductive value :=
  | JString (s : string)
  | JBool (b : bool).

Definition is_ws (c : ascii) : bool :=
  Ascii.eqb c " " || Ascii.eqb c "009" || Ascii.eqb c "010"
    || Ascii.eqb c "013".

Fixpoint skip_ws (s : string) : string :=
  match s with
  | EmptyString => s
  | String c r => if is_ws c then skip_ws r else s
  end.

(** The character that a two-character escape stands for. *)
Definition unescape (c : ascii) : option ascii :=
  if Ascii.eqb c dq then Some dq
  else if Ascii.eqb c bs then Some bs
  else if Ascii.eqb c "/" then Some "/"%char
  else if Ascii.eqb c "b" then Some "008"%char
  else if Ascii.eqb c "f" then Some "012"%char
  else if Ascii.eqb c "n" then Some "010"%char
  else if Ascii.eqb c "r" then Some "013"%char
  else if Ascii.eqb c "t" then Some "009"%char
  else None.

Definition hex_digit (c : ascii) : option nat :=
  let n := nat_of_ascii c in
  if ((48 <=? n) && (n <=? 57))%nat then Some (n - 48)%nat
  else if ((65 <=? n) && (n <=? 70))%nat then Some (n - 55)%nat
  else if ((97 <=? n) && (n <=? 102))%nat then Some (n - 87)%nat
  else None.

Definition hex4 (a b c d : ascii) : option nat :=
  x ← hex_digit a; y ← hex_digit b; z ← hex_digit c; w ← hex_digit d;
  Some (((x * 16 + y) * 16 + z) * 16 + w)%nat.

(** The characters of a string after its opening quote: the decoded
    content and what follows the closing quote. *)
Fixpoint string_body (s : string) : option (string * string) :=
  match s with
  | EmptyString => None
  | String c r =>
      if Ascii.eqb c dq then Some (EmptyString, r)
      else if Ascii.eqb c bs then
        match r with
        | EmptyString => None
        | String e r1 =>
            if Ascii.eqb e "u" then
              match r1 with
              | String h1 (String h2 (String h3 (String h4 r2))) =>
                  match hex4 h1 h2 h3 h4 with
                  | Some n =>
                      if (n <? 128)%nat then
                        match string_body r2 with
                        | Some (t, rest) =>
                            Some (String (ascii_of_nat n) t, rest)
                        | None => None
                        end
                      else None
                  | None => None
                  end
              | _ => None
              end
            else
              match unescape e with
              | Some d =>
                  match string_body r1 with
                  | Some (t, rest) => Some (String d t, rest)
                  | None => None
                  end
              | None => None
              end
        end
      else if (nat_of_ascii c <? 32)%nat then None
      else
        match string_body r with
        | Some (t, rest) => Some (String c t, rest)
        | None => None
        end
  end.

(** [s] without its prefix [p], when it has it. *)
Fixpoint strip_prefix (p s : string) : option string :=
  match p, s with
  | EmptyString, _ => Some s
  | String a p', String b s' =>
      if Ascii.eqb a b then strip_prefix p' s' else None
  | String _ _, EmptyString => None
  end.

Definition parse_value (s : string) : option (value * string) :=
  match s with
  | EmptyString => None
  | String c r =>
      if Ascii.eqb c dq then
        '(t, rest) ← string_body r; Some (JString t, rest)
      else
        match strip_prefix "true" s with
        | Some rest => Some (JBool true, rest)
        | None =>
            match strip_prefix "false" s with
            | Some rest => Some (JBool false, rest)
            | None => None
            end
        end
  end.

(** One member, [ws string ws ":" ws value]. *)
Definition member (s : string) : option ((string * value) * string) :=
  match skip_ws s with
  | EmptyString => None
  | String c r =>
      if Ascii.eqb c dq then
        '(k, r1) ← string_body r;
        match skip_ws r1 with
        | EmptyString => None
        | String c1 r2 =>
            if Ascii.eqb c1 ":" then
              '(v, r3) ← parse_value (skip_ws r2); Some ((k, v), r3)
            else None
        end
      else None
  end.

(** The members up to the closing brace; each one uses a unit of [fuel]. *)
Fixpoint members (fuel : nat) (s : string)
  : option (list (string * value) * string) :=
  match fuel with
  | O => None
  | S fuel' =>
      '(kv, r) ← member s;
      match skip_ws r with
      | EmptyString => None
      | String c r1 =>
          if Ascii.eqb c "," then
            '(kvs, r2) ← members fuel' r1; Some (kv :: kvs, r2)
          else if Ascii.eqb c "}" then Some ([kv], r1)
          else None
      end
  end.

(** The grammar of a whole text that is one object: its members in
    order.  A member takes at least one character, so the length of the
    text is fuel enough. *)
Definition read_object (s : string) : option (list (string * value)) :=
  match skip_ws s with
  | EmptyString => None
  | String c r =>
      if Ascii.eqb c "{" then
        match skip_ws r with
        | EmptyString => None
        | String c1 r1 =>
            if Ascii.eqb c1 "}" then
              match skip_ws r1 with
              | EmptyString => Some []
              | String _ _ => None
              end
            else
              '(kvs, r2) ← members (String.length s) (String c1 r1);
              match skip_ws r2 with
              | EmptyString => Some kvs
              | String _ _ => None
              end
        end
      else None
  end.

(** What the first byte of a UTF-8 sequence announces: a sequence of one,
    two, three or four bytes, and for three and four the range that the
    second byte must lie in. *)
Inductive lead_kind :=
  | One
  | Two
  | Three (lo hi : nat)
  | Four (lo hi : nat)
  | Bad.

Definition lead (c : ascii) : lead_kind :=
  let n := nat_of_ascii c in
  if (n <? 128)%nat then One
  else if ((194 <=? n) && (n <=? 223))%nat then Two
  else if (n =? 224)%nat then Three 160 191
  else if ((225 <=? n) && (n <=? 236))%nat then Three 128 191
  else if (n =? 237)%nat then Three 128 159
  else if ((238 <=? n) && (n <=? 239))%nat then Three 128 191
  else if (n =? 240)%nat then Four 144 191
  else if ((241 <=? n) && (n <=? 243))%nat then Four 128 191
  else if (n =? 244)%nat then Four 128 143
  else Bad.

Definition in_range (lo hi : nat) (c : ascii) : bool :=
  ((lo <=? nat_of_ascii c) && (nat_of_ascii c <=? hi))%nat.

(** A continuation byte, 0x80 to 0xBF. *)
Definition cont (c : ascii) : bool := in_range 128 191 c.

(** Well-formed UTF-8. *)
Fixpoint utf8_valid (s : string) : bool :=
  match s with
  | EmptyString => true
  | String c r =>
      match lead c with
      | One => utf8_valid r
      | Two =>
          match r with
          | String c1 r1 => cont c1 && utf8_valid r1
          | _ => false
          end
      | Three lo hi =>
          match r with
          | String c1 (String c2 r2) =>
              in_range lo hi c1 && cont c2 && utf8_valid r2
          | _ => false
          end
      | Four lo hi =>
          match r with
          | String c1 (String c2 (String c3 r3)) =>
              in_range lo hi c1 && cont c2 && cont c3 && utf8_valid r3
          | _ => false
          end
      | Bad => false
      end
  end.

(** Reading a whole text: it must be well-formed UTF-8 and one object of
    the grammar above. *)
Definition parse_object (s : string) : option (list (string * value)) :=
  if utf8_valid s then read_object s else None.

(** No quote, no backslash, no control character: a character that
    stands for itself inside a JSON string. *)
Definition plain_char (c : ascii) : bool :=
  negb (Ascii.eqb c dq) && negb (Ascii.eqb c bs)
    && negb (nat_of_ascii c <? 32)%nat.

Fixpoint plain (s : string) : bool :=
  match s with
  | EmptyString => true
  | String c r => plain_char c && plain r
  end.

(** The object that a user is read back as. *)
Definition of_user (u : User) : list (string * value) :=
  [("id", JString (id u)); ("name", JString (name u));
   ("email", JString (email u)); ("active", JBool (isActive u))].

End Json.

(** ** The invariant of the repository *)

(** Every stored record is one that [validate] accepts. *)
Definition all_valid (users : store) : Prop :=
  ∀ k u, users !! k = Some u → UserValidatorImpl.validate u = Return tt.

(** ** The exceptions of the service, by name *)

(** What [validate] throws for a blank name. *)
Definition blank_name : exception :=
  invalid_argument "Validation Error: User name cannot be blank.".

(** What [validate] throws for an email without "@" or without ".". *)
Definition bad_email (e : string) : exception :=
  invalid_argument
    ("Validation Error: Invalid email format for " +:+ e +:+ ".").

(** What the service throws when [findById] returns [nullptr]. *)
Definition not_found (userId : string) : exception :=
  out_of_range ("User with ID " +:+ userId +:+ " not found.").

(** What [getFormattedUserDetails] throws for a format it does not know. *)
Definition unsupported_format (format : string) : exception :=
  invalid_argument ("Unsupported format: " +:+ format).

(** ** Particular users and repositories *)

Definition alice : User :=
  mkUser "u123" "Alice Wonderland" "alice@example.com" true.

Definition bob : User :=
  mkUser "u124" "Bob The Builder" "bob@example.net" true.

(** A user whose email has its "." before its "@". *)
Definition dot_first : User := mkUser "u1" "Bob" "a.b@c" true.

(** A user whose name is the three characters A, double quote, B. *)
Definition quoted : User :=
  mkUser "u2" (String "A" (String dq "B")) "a@b.c" true.

(** ** [class BadUser] (user_bad_example.cpp)

    The monolithic class that the layered design replaces.  Its
    [saveToDatabase] only writes traces, so it has no counterpart here. *)

Module BadUser.

Record BadUser := mk {
  id : string;
  name : string;
  email : string;
  isActive : bool
}.

(** [BadUser(id, name, email)], with the default argument
    [isActive = true]. *)
Definition new (i n e : string) : BadUser := mk i n e true.

Definition isValid (this : BadUser) : bool :=
  if empty (name this) then false
  else if bool_decide (find "@" (email this) = None) then false
  else true.

Definition formatForDisplay (this : BadUser) : string :=
  let status := if isActive this then "Active" else "Inactive" in
  "User ID: " +:+ id this +:+ LF +:+ "Name: " +:+ name this +:+ LF
    +:+ "Email: " +:+ email this +:+ LF +:+ "Status: " +:+ status.

Definition getId (this : BadUser) : string := id this.
Definition getName (this : BadUser) : string := name this.
Definition getEmail (this : BadUser) : string := email this.
Definition getIsActive (this : BadUser) : bool := isActive this.

Definition setIsActive (status : bool) (this : BadUser) : BadUser :=
  mk (id this) (name this) (email this) status.

End BadUser.

(** The fields of a [User] in a [BadUser]. *)
Definition BadUser_of (u : User) : BadUser.BadUser :=
  BadUser.mk (id u) (name u) (email u) (isActive u).

(** ** Service calls over any validator and presenter

    [UserService] over the in-memory repository and two collaborators that
    the caller chooses. *)

Definition serve_with (v : IUserValidator) (p : IUserPresenter)
    (users : store) (r : request) : store :=
  match r with
  | CreateUser i n e =>
      (UserService.createUser InMemoryUserRepository.impl v i n e users).2
  | GetFormattedUserDetails userId format =>
      (UserService.getFormattedUserDetails InMemoryUserRepository.impl p
         userId format users).2
  | ActivateUser userId =>
      (UserService.activateUser InMemoryUserRepository.impl userId users).2
  end.

Definition run_with (v : IUserValidator) (p : IUserPresenter)
    (rs : list request) : store :=
  foldl (serve_with v p) ∅ rs.

(** Every record is stored under its own id, is active, and is one that the
    validator [v] accepts. *)
Definition kept (v : IUserValidator) (users : store) : Prop :=
  ∀ k u, users !! k = Some u →
    id u = k ∧ isActive u = true ∧ validate v u = Return tt.

(** Every record is stored under its own id, as [save] stores it. *)
Definition keyed (users : store) : Prop :=
  ∀ k u, users !! k = Some u → id u = k.

(** The id that a call is about. *)
Definition target (r : request) : string :=
  match r with
  | CreateUser i _ _ => i
  | GetFormattedUserDetails userId _ => userId
  | ActivateUser userId => userId
  end.

(** A validator with no rule at all. *)
Definition accept_all : IUserValidator :=
  Build_IUserValidator (fun _ => Return tt).

(** ** Users whose renderings can be read back *)

(** No line feed in the id, the name and the email. *)
Definition line_free (u : User) : bool :=
  negb (containsb lf (id u)) && negb (containsb lf (name u))
    && negb (containsb lf (email u)).

(** No double quote, backslash or control character in the id, the name and
    the email. *)
Definition plain_user (u : User) : bool :=
  Json.plain (id u) && Json.plain (name u) && Json.plain (email u).

(** A user whose name is Zo followed by e with diaeresis, U+00EB, in UTF-8:
    the two bytes 0xC3 0xAB. *)
Definition zoe : User :=
  mkUser "u127" (String "Z" (String "o" (String "195" (String "171" ""))))
    "zoe@example.org" true.

(** The same name in Latin-1, the single byte 0xEB: not UTF-8. *)
Definition zoe_latin1 : User :=
  mkUser "u128" (String "Z" (String "o" (String "235" "")))
    "zoe@example.org" true.

(** An inactive record, as a caller of the repository can save one. *)
Definition carol : User := mkUser "u126" "Carol" "carol@example.org" false.

(** * Properties *)

(** Let [simpl] compute the concatenation with a literal. *)
Local Arguments String.append !_ _ / : simpl nomatch.

(** ** Strings *)

Lemma find_None c s : find c s = None ↔ containsb c s = false.
Proof.
  induction s as [|d r IH]; simpl; [done|].
  destruct (Ascii.eqb d c); simpl; [done|].
  rewrite <- IH. destruct (find c r); simpl; split; congruence.
Qed.

Lemma containsb_app c a b : containsb c (a +:+ String c b) = true.
Proof.
  induction a as [|d a IH]; simpl.
  - by rewrite Ascii.eqb_refl.
  - rewrite IH. apply orb_true_r.
Qed.

Lemma containsb_spec c s : containsb c s = true ↔ contains c s.
Proof.
  split.
  - induction s as [|d r IH]; simpl; [done|].
    destruct (Ascii.eqb d c) eqn:E; simpl.
    + apply Ascii.eqb_eq in E as ->. intros _. by exists "", r.
    + intros (a & b & ->)%IH. by exists (String d a), b.
  - intros (a & b & ->). apply containsb_app.
Qed.

Lemma append_String_assoc a x b t :
  (a +:+ String x b) +:+ t = a +:+ String x (b +:+ t).
Proof. induction a as [|y a IH]; simpl; [done|]. by rewrite IH. Qed.

Lemma not_contains c s : ¬ contains c s ↔ find c s = None.
Proof.
  rewrite find_None, <- containsb_spec. by destruct (containsb c s).
Qed.

Lemma find_contains c s : find c s ≠ None ↔ contains c s.
Proof.
  rewrite find_None, <- containsb_spec. by destruct (containsb c s).
Qed.

Lemma at_then_dotb_spec e : at_then_dotb e = true ↔ at_then_dot e.
Proof.
  split.
  - induction e as [|d r IH]; simpl; [done|].
    destruct (Ascii.eqb d "@") eqn:E.
    + apply Ascii.eqb_eq in E as ->.
      intros (b & c & ->)%containsb_spec. by exists "", b, c.
    + intros (a & b & c & ->)%IH. by exists (String d a), b, c.
  - intros (a & b & c & ->). induction a as [|d a IH]; simpl.
    + apply containsb_app.
    + destruct (Ascii.eqb d "@"); [|done].
      apply containsb_spec.
      exists (a +:+ String "@" b), c. by rewrite append_String_assoc.
Qed.

Lemma at_then_dot_contains e :
  at_then_dot e → contains "@" e ∧ contains "." e.
Proof.
  intros (a & b & c & ->). split.
  - by exists a, (b +:+ String "." c).
  - exists (a +:+ String "@" b), c. by rewrite append_String_assoc.
Qed.

Lemma empty_spec s : empty s = true ↔ s = "".
Proof. by destruct s. Qed.

(** ** The validator *)

Lemma validate_blank u :
  name u = "" → UserValidatorImpl.validate u = Throw blank_name.
Proof. intros H. unfold UserValidatorImpl.validate. by rewrite H. Qed.

Lemma validate_bad_email u :
  name u ≠ "" →
  ¬ (contains "@" (email u) ∧ contains "." (email u)) →
  UserValidatorImpl.validate u = Throw (bad_email (email u)).
Proof.
  intros Hn He. unfold UserValidatorImpl.validate.
  destruct (empty (name u)) eqn:E; [by apply empty_spec in E|].
  destruct (orb _ _) eqn:O; [done|].
  apply orb_false_elim in O as [O1 O2].
  apply bool_decide_eq_false in O1, O2. rewrite find_contains in O1, O2.
  by destruct He.
Qed.

Lemma validate_ok u :
  UserValidatorImpl.validate u = Return tt
  ↔ name u ≠ "" ∧ contains "@" (email u) ∧ contains "." (email u).
Proof.
  unfold UserValidatorImpl.validate.
  destruct (empty (name u)) eqn:E.
  { apply empty_spec in E. split; [done|]. by intros [? _]. }
  assert (name u ≠ "") as Hn by (intros H; by rewrite H in E).
  destruct (orb _ _) eqn:O.
  - split; [done|]. intros (_ & H1 & H2). exfalso.
    apply orb_true_iff in O as [O|O]; apply bool_decide_eq_true in O;
      apply not_contains in O; by apply O.
  - split; [intros _|done].
    apply orb_false_elim in O as [O1 O2].
    apply bool_decide_eq_false in O1, O2. by rewrite find_contains in O1, O2.
Qed.

Lemma validate_valid_pair i n e :
  valid_pair n e → UserValidatorImpl.validate (User_new i n e) = Return tt.
Proof.
  intros [Hn He]. apply validate_ok. simpl.
  split; [done|]. by apply at_then_dot_contains.
Qed.

Lemma validate_set_isActive b u :
  UserValidatorImpl.validate (set_isActive b u) = UserValidatorImpl.validate u.
Proof. done. Qed.

(** C1 (as amended).  For a user with a non-empty name, [validate] accepts
    exactly when the email contains an "@" and contains a ".", wherever the
    two stand; an email without one of them is rejected with the exception
    [invalid_argument] whose message is "Validation Error: Invalid email
    format for ", the email, ".". *)
Theorem validate_email_rule (u : User) (Hname : name u ≠ "") :
  (UserValidatorImpl.validate u = Return tt
   ↔ contains "@" (email u) ∧ contains "." (email u))
  ∧ (¬ (contains "@" (email u) ∧ contains "." (email u)) →
     UserValidatorImpl.validate u = Throw (bad_email (email u))).
Proof.
  split.
  - rewrite validate_ok. tauto.
  - by apply validate_bad_email.
Qed.

Lemma validate_email_rule_witness :
  (UserValidatorImpl.validate alice = Return tt
   ↔ contains "@" (email alice) ∧ contains "." (email alice))
  ∧ (¬ (contains "@" (email alice) ∧ contains "." (email alice)) →
     UserValidatorImpl.validate alice = Throw (bad_email (email alice))).
Proof. apply (validate_email_rule alice). discriminate. Defined.

(** C1, as the specification states it, fails: the email "a.b@c" has no "."
    after its "@", and [validate] accepts the user who carries it. *)
Lemma validate_accepts_dot_before_at :
  name dot_first ≠ ""
  ∧ ¬ at_then_dot (email dot_first)
  ∧ UserValidatorImpl.validate dot_first = Return tt.
Proof.
  split; [discriminate|]. split; [|reflexivity].
  rewrite <- at_then_dotb_spec. discriminate.
Qed.

(** C6.  The name rule comes first: for every user with an empty name,
    whatever the email, [validate] throws the exception of the name rule,
    "Validation Error: User name cannot be blank." (the reason that the
    specification calls "name required"); and
    [createUser("u125", "", "invalid")] throws it on every repository
    content, which it leaves as it was. *)
Theorem validate_name_rule_first (u : User) (users : store)
    (Hname : name u = "") :
  UserValidatorImpl.validate u = Throw blank_name
  ∧ userService.createUser "u125" "" "invalid" users
    = (Throw blank_name, users).
Proof. split; [by apply validate_blank | reflexivity]. Qed.

Lemma validate_name_rule_first_witness :
  UserValidatorImpl.validate (mkUser "u125" "" "invalid" true)
  = Throw blank_name
  ∧ userService.createUser "u125" "" "invalid" ∅ = (Throw blank_name, ∅).
Proof.
  apply (validate_name_rule_first (mkUser "u125" "" "invalid" true) ∅).
  reflexivity.
Defined.

(** ** The repository *)

Lemma save_spec u users :
  InMemoryUserRepository.save u users = (Return u, <[id u := u]> users).
Proof.
  unfold InMemoryUserRepository.save, subscript.
  by rewrite lookup_insert_eq.
Qed.

Lemma findById_Some users k u :
  users !! k = Some u →
  InMemoryUserRepository.findById k users = (Return (Some k), users).
Proof. intros H. unfold InMemoryUserRepository.findById. by rewrite H. Qed.

Lemma findById_None users k :
  users !! k = None →
  InMemoryUserRepository.findById k users = (Return None, users).
Proof. intros H. unfold InMemoryUserRepository.findById. by rewrite H. Qed.

Lemma deref_Some users k u :
  users !! k = Some u → deref k users = (Return u, users).
Proof. intros H. unfold deref, subscript. by rewrite H. Qed.

(** ** The service *)

Lemma createUser_accepted i n e users :
  UserValidatorImpl.validate (User_new i n e) = Return tt →
  userService.createUser i n e users
  = (Return (User_new i n e), <[i := User_new i n e]> users).
Proof.
  intros H. unfold userService.createUser, UserService.createUser.
  unfold mbind, M_bind, lift. simpl. rewrite H. apply save_spec.
Qed.

Lemma createUser_rejected repo i n e users x :
  UserValidatorImpl.validate (User_new i n e) = Throw x →
  UserService.createUser repo UserValidatorImpl.impl i n e users
  = (Throw x, users).
Proof.
  intros H. unfold UserService.createUser, mbind, M_bind, lift. simpl.
  by rewrite H.
Qed.

Lemma getFormattedUserDetails_stored users k u format :
  users !! k = Some u →
  userService.getFormattedUserDetails k format users
  = if bool_decide (format = "console") then
      (Return (UserPresenterImpl.formatForConsole u), users)
    else if bool_decide (format = "json") then
      (Return (UserPresenterImpl.formatForJson u), users)
    else (Throw (unsupported_format format), users).
Proof.
  intros H.
  unfold userService.getFormattedUserDetails,
    UserService.getFormattedUserDetails, mbind, M_bind. simpl.
  rewrite (findById_Some _ _ _ H). unfold subscript. rewrite H. simpl.
  by repeat case_bool_decide.
Qed.

Lemma activateUser_stored users k u :
  users !! k = Some u →
  userService.activateUser k users
  = (Return (set_isActive true u),
     <[id u := set_isActive true u]> (<[k := set_isActive true u]> users)).
Proof.
  intros H.
  unfold userService.activateUser, UserService.activateUser, mbind, M_bind.
  simpl. rewrite (findById_Some _ _ _ H). unfold write_isActive.
  assert (alter (set_isActive true) k users
          = <[k := set_isActive true u]> users) as ->.
  { apply map_eq. intros j. destruct (decide (k = j)) as [->|Hne].
    - by rewrite lookup_alter_eq, lookup_insert_eq, H.
    - by rewrite lookup_alter_ne, lookup_insert_ne. }
  unfold deref, subscript. rewrite lookup_insert_eq.
  exact (save_spec (set_isActive true u) _).
Qed.

Lemma activateUser_absent users k :
  users !! k = None →
  userService.activateUser k users = (Throw (not_found k), users).
Proof.
  intros H.
  unfold userService.activateUser, UserService.activateUser, mbind, M_bind.
  simpl. by rewrite (findById_None _ _ H).
Qed.

Lemma set_isActive_id u : isActive u = true → set_isActive true u = u.
Proof. destruct u as [i n e a]. simpl. by intros ->. Qed.

(** C2.  For every id and every valid pair (a non-empty name, an email
    containing "@" then "."), [createUser] returns the user built from the
    three arguments with [isActive = true], and [findById] of that id
    afterwards returns a pointer to a record equal to it in every field. *)
Theorem createUser_valid (i n e : string) (users : store)
    (Hvalid : valid_pair n e) :
  ∃ u users',
    userService.createUser i n e users = (Return u, users')
    ∧ u = mkUser i n e true
    ∧ isActive u = true
    ∧ InMemoryUserRepository.findById i users' = (Return (Some i), users')
    ∧ deref i users' = (Return u, users').
Proof.
  exists (User_new i n e), (<[i := User_new i n e]> users).
  split; [by apply createUser_accepted, validate_valid_pair|].
  repeat split.
  - by apply findById_Some with (User_new i n e), lookup_insert_eq.
  - by apply deref_Some, lookup_insert_eq.
Qed.

Lemma createUser_valid_witness :
  ∃ u users',
    userService.createUser "u123" "Alice Wonderland" "alice@example.com" ∅
    = (Return u, users')
    ∧ u = mkUser "u123" "Alice Wonderland" "alice@example.com" true
    ∧ isActive u = true
    ∧ InMemoryUserRepository.findById "u123" users'
      = (Return (Some "u123"), users')
    ∧ deref "u123" users' = (Return u, users').
Proof.
  apply (createUser_valid "u123" "Alice Wonderland" "alice@example.com" ∅).
  split; [discriminate|]. by exists "alice", "example", "com".
Defined.

(** C3 (as amended).  When the name is empty, or the email has no "@", or
    the email has no ".", and the id is absent from the repository,
    [createUser] throws [invalid_argument] whatever the repository object
    it was given is, so that no member of the repository contributes to the
    call; the map is left as it was and [findById] of the id afterwards
    still returns [nullptr]. *)
Theorem createUser_invalid (repo : IUserRepository) (i n e : string)
    (users : store)
    (Hinvalid : n = "" ∨ ¬ contains "@" e ∨ ¬ contains "." e)
    (Habsent : users !! i = None) :
  ∃ what,
    UserService.createUser repo UserValidatorImpl.impl i n e users
    = (Throw (invalid_argument what), users)
    ∧ userService.createUser i n e users
      = (Throw (invalid_argument what), users)
    ∧ InMemoryUserRepository.findById i
        (userService.createUser i n e users).2
      = (Return None, users).
Proof.
  assert (∃ what, UserValidatorImpl.validate (User_new i n e)
                  = Throw (invalid_argument what)) as [what Hv].
  { destruct (decide (n = "")) as [->|Hn].
    - eexists. by apply validate_blank.
    - eexists. apply validate_bad_email; [done|]. simpl. tauto. }
  exists what. split; [by apply createUser_rejected|].
  unfold userService.createUser.
  rewrite (createUser_rejected _ _ _ _ _ _ Hv). simpl.
  split; [done | by apply findById_None].
Qed.

Lemma createUser_invalid_witness :
  ∃ what,
    UserService.createUser InMemoryUserRepository.impl UserValidatorImpl.impl
      "u125" "" "invalid" ∅
    = (Throw (invalid_argument what), ∅)
    ∧ userService.createUser "u125" "" "invalid" ∅
      = (Throw (invalid_argument what), ∅)
    ∧ InMemoryUserRepository.findById "u125"
        (userService.createUser "u125" "" "invalid" ∅).2
      = (Return None, ∅).
Proof.
  apply (createUser_invalid InMemoryUserRepository.impl
           "u125" "" "invalid" ∅).
  - left. reflexivity.
  - reflexivity.
Defined.

(** C3, as the specification states it, fails: the pair ("Bob", "a.b@c") is
    not a valid pair in the specification's sense, the id "u1" is absent
    from the empty repository, and yet [createUser] returns the user, saved,
    and [findById] finds it afterwards. *)
Lemma createUser_saves_dot_before_at :
  ¬ valid_pair "Bob" "a.b@c"
  ∧ (∅ : store) !! "u1" = None
  ∧ userService.createUser "u1" "Bob" "a.b@c" ∅
    = (Return dot_first, {[ "u1" := dot_first ]})
  ∧ InMemoryUserRepository.findById "u1" {[ "u1" := dot_first ]}
    = (Return (Some "u1"), {[ "u1" := dot_first ]}).
Proof.
  split; [|split; [done|split]].
  - intros [_ H]. apply at_then_dotb_spec in H. discriminate.
  - vm_compute. reflexivity.
  - vm_compute. reflexivity.
Qed.

(** C10.  When the id is already in the repository and the pair is valid,
    [createUser] throws nothing: it returns the newly built user, which
    replaces the record stored under that id, and no other record
    changes. *)
Theorem createUser_overwrites (i n e : string) (users : store) (old : User)
    (Hpresent : users !! i = Some old) (Hvalid : valid_pair n e) :
  ∃ users',
    userService.createUser i n e users = (Return (mkUser i n e true), users')
    ∧ users' !! i = Some (mkUser i n e true)
    ∧ ∀ j, j ≠ i → users' !! j = users !! j.
Proof.
  exists (<[i := User_new i n e]> users).
  split; [by apply createUser_accepted, validate_valid_pair|].
  split; [apply lookup_insert_eq|].
  intros j Hj. by apply lookup_insert_ne.
Qed.

Lemma createUser_overwrites_witness :
  ∃ users',
    userService.createUser "u123" "Alice Liddell" "alice@example.org"
      {[ "u123" := alice ]}
    = (Return (mkUser "u123" "Alice Liddell" "alice@example.org" true),
       users')
    ∧ users' !! "u123"
      = Some (mkUser "u123" "Alice Liddell" "alice@example.org" true)
    ∧ ∀ j, j ≠ "u123" →
        users' !! j = ({[ "u123" := alice ]} : store) !! j.
Proof.
  apply (createUser_overwrites "u123" "Alice Liddell" "alice@example.org"
           {[ "u123" := alice ]} alice).
  - reflexivity.
  - split; [discriminate|]. by exists "alice", "example", "org".
Defined.

(** ** The invariant of the repository *)

Section Invariant.

Lemma all_valid_empty : all_valid ∅.
Proof. intros k u H. by rewrite lookup_empty in H. Qed.

Lemma all_valid_insert users k u :
  all_valid users → UserValidatorImpl.validate u = Return tt →
  all_valid (<[k := u]> users).
Proof.
  intros Hall Hu j v. rewrite lookup_insert. case_decide.
  - by intros [= <-].
  - apply Hall.
Qed.

Lemma all_valid_serve users r : all_valid users → all_valid (serve users r).
Proof.
  intros Hall. destruct r as [i n e|userId format|userId]; simpl.
  - destruct (UserValidatorImpl.validate (User_new i n e)) as [[]|x] eqn:Hv.
    + rewrite (createUser_accepted _ _ _ _ Hv). simpl.
      by apply all_valid_insert.
    + unfold userService.createUser.
      by rewrite (createUser_rejected _ _ _ _ _ _ Hv).
  - destruct (users !! userId) as [u|] eqn:Hu.
    + rewrite (getFormattedUserDetails_stored _ _ _ _ Hu).
      by repeat case_bool_decide.
    + unfold userService.getFormattedUserDetails,
        UserService.getFormattedUserDetails, mbind, M_bind. simpl.
      by rewrite (findById_None _ _ Hu).
  - destruct (users !! userId) as [u|] eqn:Hu.
    + rewrite (activateUser_stored _ _ _ Hu). simpl.
      assert (UserValidatorImpl.validate (set_isActive true u) = Return tt)
        by (rewrite validate_set_isActive; by apply (Hall userId)).
      by repeat apply all_valid_insert.
    + by rewrite (activateUser_absent _ _ Hu).
Qed.

Lemma all_valid_foldl rs users :
  all_valid users → all_valid (foldl serve users rs).
Proof.
  revert users. induction rs as [|r rs IH]; intros users Hall; simpl.
  - done.
  - by apply IH, all_valid_serve.
Qed.

End Invariant.

(** C5.  After any sequence of [createUser], [getFormattedUserDetails] and
    [activateUser] calls on a repository that starts empty, whether the
    calls return or throw, every record that the repository holds is one
    that [validate] accepts. *)
Theorem stored_users_valid (rs : list request) (k : string) (u : User)
    (Hstored : run rs !! k = Some u) :
  UserValidatorImpl.validate u = Return tt.
Proof.
  revert k u Hstored. apply all_valid_foldl, all_valid_empty.
Qed.

Lemma stored_users_valid_witness :
  UserValidatorImpl.validate bob = Return tt.
Proof.
  apply (stored_users_valid
           [CreateUser "u123" "Alice Wonderland" "alice@example.com";
            CreateUser "u124" "Bob The Builder" "bob@example.net";
            GetFormattedUserDetails "u124" "json";
            CreateUser "u125" "" "invalid";
            ActivateUser "u124"]
           "u124" bob).
  vm_compute. reflexivity.
Defined.

(** C7.  When the record stored under an id is already active,
    [activateUser] of that id returns a user equal to that record in every
    field, and a second call returns the same user and leaves the map as
    the first call left it; when the record is stored under its own id, as
    [save] stores it, the first call leaves the map as it was too. *)
Theorem activateUser_idempotent (users : store) (k : string) (u : User)
    (Hstored : users !! k = Some u) (Hactive : isActive u = true) :
  ∃ users',
    userService.activateUser k users = (Return u, users')
    ∧ userService.activateUser k users' = (Return u, users')
    ∧ (id u = k → users' = users).
Proof.
  exists (<[id u := u]> users).
  assert (<[k := u]> users = users) as Hk by by apply insert_id.
  assert (<[id u := u]> users !! k = Some u) as Hk'.
  { rewrite lookup_insert. by case_decide. }
  split; [|split].
  - rewrite (activateUser_stored _ _ _ Hstored).
    by rewrite (set_isActive_id _ Hactive), Hk.
  - rewrite (activateUser_stored _ _ _ Hk').
    rewrite (set_isActive_id _ Hactive).
    by rewrite (insert_id _ k u Hk'), insert_insert_eq.
  - by intros ->.
Qed.

Lemma activateUser_idempotent_witness :
  ∃ users',
    userService.activateUser "u124" {[ "u124" := bob ]} = (Return bob, users')
    ∧ userService.activateUser "u124" users' = (Return bob, users')
    ∧ (id bob = "u124" → users' = {[ "u124" := bob ]}).
Proof.
  apply (activateUser_idempotent {[ "u124" := bob ]} "u124" bob);
    reflexivity.
Defined.

(** C8.  For every id that the repository does not hold, [activateUser]
    throws [out_of_range] ("User with ID ", the id, " not found.") and the
    map afterwards is the map before the call. *)
Theorem activateUser_unknown (users : store) (k : string)
    (Habsent : users !! k = None) :
  userService.activateUser k users = (Throw (not_found k), users).
Proof. by apply activateUser_absent. Qed.

Lemma activateUser_unknown_witness :
  userService.activateUser "u999" {[ "u124" := bob ]}
  = (Throw (not_found "u999"), {[ "u124" := bob ]}).
Proof. apply (activateUser_unknown {[ "u124" := bob ]} "u999"). reflexivity. Defined.

(** C9.  For every stored user and every format other than "console" and
    "json", [getFormattedUserDetails] throws [invalid_argument]
    ("Unsupported format: ", the format): an exception that the caller can
    catch, not a rendering in some default format, and the map is as it
    was; and the call that gives no format returns the console rendering. *)
Theorem getFormattedUserDetails_unsupported (users : store) (k : string)
    (u : User) (format : string)
    (Hstored : users !! k = Some u)
    (Hvalid : UserValidatorImpl.validate u = Return tt)
    (Hconsole : format ≠ "console") (Hjson : format ≠ "json") :
  userService.getFormattedUserDetails k format users
  = (Throw (unsupported_format format), users)
  ∧ userService.getFormattedUserDetails_default k users
    = (Return (UserPresenterImpl.formatForConsole u), users).
Proof.
  split.
  - rewrite (getFormattedUserDetails_stored _ _ _ _ Hstored).
    by rewrite !bool_decide_eq_false_2.
  - apply (getFormattedUserDetails_stored _ _ _ "console" Hstored).
Qed.

Lemma getFormattedUserDetails_unsupported_witness :
  userService.getFormattedUserDetails "u124" "xml" {[ "u124" := bob ]}
  = (Throw (unsupported_format "xml"), {[ "u124" := bob ]})
  ∧ userService.getFormattedUserDetails_default "u124" {[ "u124" := bob ]}
    = (Return (UserPresenterImpl.formatForConsole bob), {[ "u124" := bob ]}).
Proof.
  apply (getFormattedUserDetails_unsupported
           {[ "u124" := bob ]} "u124" bob "xml");
    [reflexivity | reflexivity | discriminate | discriminate].
Defined.

(** ** Reading the JSON rendering back *)

Section JsonRoundTrip.

Import Json.

Local Arguments member : simpl never.
Local Arguments members : simpl never.
Local Arguments read_object : simpl never.
Local Arguments lead : simpl never.

Lemma string_body_plain s rest :
  plain s = true → string_body (s +:+ String dq rest) = Some (s, rest).
Proof.
  induction s as [|c r IH]; simpl; [done|].
  intros [[[Hq Hb]%andb_prop Hc]%andb_prop Hr]%andb_prop.
  apply negb_true_iff in Hq, Hb, Hc.
  by rewrite Hq, Hb, Hc, (IH Hr).
Qed.

Lemma member_string k v rest :
  plain k = true → plain v = true →
  member (String dq (k +:+ String dq
                       (String ":" (String dq (v +:+ String dq rest)))))
  = Some ((k, JString v), rest).
Proof.
  intros Hk Hv. unfold member. simpl.
  rewrite (string_body_plain _ _ Hk). simpl.
  by rewrite (string_body_plain _ _ Hv).
Qed.

Lemma member_bool k (b : bool) rest :
  plain k = true →
  member (String dq (k +:+ String dq
                       (String ":"
                          ((if b then "true" else "false") +:+ rest))))
  = Some ((k, JBool b), rest).
Proof.
  intros Hk. unfold member. simpl.
  rewrite (string_body_plain _ _ Hk). by destruct b.
Qed.

Lemma members_space fuel s : members fuel (String " " s) = members fuel s.
Proof. by destruct fuel. Qed.

Lemma members_more fuel s kv r :
  member s = Some (kv, String "," r) →
  members (S fuel) s = '(kvs, r2) ← members fuel r; Some (kv :: kvs, r2).
Proof. intros H. unfold members; fold members. by rewrite H. Qed.

Lemma members_last fuel s kv r :
  member s = Some (kv, String "}" r) → members (S fuel) s = Some ([kv], r).
Proof. intros H. unfold members; fold members. by rewrite H. Qed.

Lemma read_object_members s kvs :
  members (S (S (String.length s))) (String dq s) = Some (kvs, "") →
  read_object (String "{" (String dq s)) = Some kvs.
Proof. intros H. unfold read_object. simpl. by rewrite H. Qed.

Lemma read_object_formatForJson u :
  plain (id u) = true → plain (name u) = true → plain (email u) = true →
  read_object (UserPresenterImpl.formatForJson u) = Some (of_user u).
Proof.
  destruct u as [i n e a]. simpl. intros Hi Hn He.
  unfold UserPresenterImpl.formatForJson. simpl.
  apply read_object_members. simpl.
  erewrite members_more by by apply (member_string "id" i).
  rewrite members_space.
  erewrite members_more by by apply (member_string "name" n).
  rewrite members_space.
  erewrite members_more by by apply (member_string "email" e).
  rewrite members_space.
  erewrite members_last by by apply (member_bool "active" a "}").
  reflexivity.
Qed.

(** Well-formed UTF-8 texts are closed under concatenation. *)
Lemma utf8_valid_app a b :
  utf8_valid a = true → utf8_valid b = true → utf8_valid (a +:+ b) = true.
Proof.
  intros Ha Hb. remember (String.length a) as n eqn:Hn.
  revert a Hn Ha. induction (lt_wf n) as [n _ IH]. intros a -> Ha.
  destruct a as [|c r]; [done|]. simpl in *.
  destruct (lead c).
  - apply (IH (String.length r)); [lia|done..].
  - destruct r as [|c1 r1]; [done|]. simpl.
    apply andb_prop in Ha as [H1 Hr]. rewrite H1. simpl.
    apply (IH (String.length r1)); [simpl; lia|done..].
  - destruct r as [|c1 [|c2 r2]]; [done..|]. simpl.
    apply andb_prop in Ha as [H12 Hr]. rewrite H12. simpl.
    apply (IH (String.length r2)); [simpl; lia|done..].
  - destruct r as [|c1 [|c2 [|c3 r3]]]; [done..|]. simpl.
    apply andb_prop in Ha as [H123 Hr]. rewrite H123. simpl.
    apply (IH (String.length r3)); [simpl; lia|done..].
  - done.
Qed.

Lemma utf8_valid_formatForJson u :
  utf8_valid (id u) = true → utf8_valid (name u) = true →
  utf8_valid (email u) = true →
  utf8_valid (UserPresenterImpl.formatForJson u) = true.
Proof.
  intros Hi Hn He. unfold UserPresenterImpl.formatForJson.
  repeat (apply utf8_valid_app; [first [assumption | reflexivity]|]).
  by destruct (isActive u).
Qed.

Lemma parse_object_formatForJson u :
  utf8_valid (id u) = true → utf8_valid (name u) = true →
  utf8_valid (email u) = true →
  plain (id u) = true → plain (name u) = true → plain (email u) = true →
  parse_object (UserPresenterImpl.formatForJson u) = Some (of_user u).
Proof.
  intros Ui Un Ue Hi Hn He. unfold parse_object.
  rewrite (utf8_valid_formatForJson u Ui Un Ue).
  by apply read_object_formatForJson.
Qed.

End JsonRoundTrip.

(** C4 (as amended).  For every stored user whose id, name and email are
    well-formed UTF-8 and hold no double quote, no backslash and no control
    character, [getFormattedUserDetails(id, "json")] returns a text that
    reads back as one JSON object with exactly the members id, name, email
    and active, in that order, the first three strings and the last a
    boolean literal, with the values of the stored record. *)
Theorem json_round_trip (users : store) (k : string) (u : User)
    (Hstored : users !! k = Some u)
    (Uid : Json.utf8_valid (id u) = true)
    (Uname : Json.utf8_valid (name u) = true)
    (Uemail : Json.utf8_valid (email u) = true)
    (Hid : Json.plain (id u) = true)
    (Hname : Json.plain (name u) = true)
    (Hemail : Json.plain (email u) = true) :
  ∃ text,
    userService.getFormattedUserDetails k "json" users = (Return text, users)
    ∧ Json.parse_object text
      = Some [("id", Json.JString (id u)); ("name", Json.JString (name u));
              ("email", Json.JString (email u));
              ("active", Json.JBool (isActive u))].
Proof.
  exists (UserPresenterImpl.formatForJson u). split.
  - by rewrite (getFormattedUserDetails_stored _ _ _ _ Hstored).
  - by apply parse_object_formatForJson.
Qed.

Lemma json_round_trip_witness :
  ∃ text,
    userService.getFormattedUserDetails "u127" "json" {[ "u127" := zoe ]}
    = (Return text, {[ "u127" := zoe ]})
    ∧ Json.parse_object text
      = Some [("id", Json.JString (id zoe));
              ("name", Json.JString (name zoe));
              ("email", Json.JString (email zoe));
              ("active", Json.JBool (isActive zoe))].
Proof.
  apply (json_round_trip {[ "u127" := zoe ]} "u127" zoe); reflexivity.
Defined.

(** The condition on the encoding is needed: a name with the single byte
    0xEB, the Latin-1 spelling of the same letter, has no quote, backslash
    or control character and passes [validate], and its rendering is not a
    JSON text. *)
Lemma json_reader_refuses_latin1 :
  UserValidatorImpl.validate zoe_latin1 = Return tt
  ∧ Json.plain (name zoe_latin1) = true
  ∧ Json.utf8_valid (name zoe_latin1) = false
  ∧ Json.parse_object (UserPresenterImpl.formatForJson zoe_latin1) = None.
Proof. repeat split; vm_compute; reflexivity. Qed.

(** C4, as the specification states it, fails: [createUser] accepts and
    stores a user whose name holds a double quote, the JSON rendering copies
    the name between quotes as it is, and the text is not a JSON object any
    more: reading it back yields nothing. *)
Lemma json_round_trip_fails_on_quote :
  userService.createUser "u2" (String "A" (String dq "B")) "a@b.c" ∅
  = (Return quoted, {[ "u2" := quoted ]})
  ∧ userService.getFormattedUserDetails "u2" "json" {[ "u2" := quoted ]}
    = (Return (UserPresenterImpl.formatForJson quoted), {[ "u2" := quoted ]})
  ∧ UserPresenterImpl.formatForJson quoted
    = "{" +:+ DQ +:+ "id" +:+ DQ +:+ ":" +:+ DQ +:+ "u2" +:+ DQ
        +:+ ", " +:+ DQ +:+ "name" +:+ DQ +:+ ":" +:+ DQ
        +:+ "A" +:+ DQ +:+ "B" +:+ DQ
        +:+ ", " +:+ DQ +:+ "email" +:+ DQ +:+ ":" +:+ DQ +:+ "a@b.c" +:+ DQ
        +:+ ", " +:+ DQ +:+ "active" +:+ DQ +:+ ":true}"
  ∧ Json.parse_object (UserPresenterImpl.formatForJson quoted) = None.
Proof. repeat split; vm_compute; reflexivity. Qed.

(** * Further properties of the code *)

(** ** The repository on its own *)

(** X1.  Whatever the repository holds, [save] returns the user it was
    given, and [findById] of that user's id afterwards returns a non-null
    pointer to a record equal to it; the records of all other ids are as
    they were. *)
Theorem save_then_findById (u : User) (users : store) :
  ∃ users',
    InMemoryUserRepository.save u users = (Return u, users')
    ∧ InMemoryUserRepository.findById (id u) users'
      = (Return (Some (id u)), users')
    ∧ deref (id u) users' = (Return u, users')
    ∧ ∀ j, j ≠ id u → users' !! j = users !! j.
Proof.
  exists (<[id u := u]> users). split; [apply save_spec|].
  split; [|split].
  - by apply findById_Some with u, lookup_insert_eq.
  - by apply deref_Some, lookup_insert_eq.
  - intros j Hj. by apply lookup_insert_ne.
Qed.

(** X2.  Last write wins: saving two users that have the same id leaves the
    map that saving the second one alone leaves, and returns the second. *)
Theorem save_last_write_wins (u1 u2 : User) (users : store)
    (Hid : id u1 = id u2) :
  (InMemoryUserRepository.save u1 ;; InMemoryUserRepository.save u2) users
  = InMemoryUserRepository.save u2 users.
Proof.
  unfold mbind, M_bind. rewrite !save_spec, Hid.
  by rewrite insert_insert_eq.
Qed.

Lemma save_last_write_wins_witness :
  (InMemoryUserRepository.save carol ;;
   InMemoryUserRepository.save (set_isActive true carol)) ∅
  = InMemoryUserRepository.save (set_isActive true carol) ∅.
Proof.
  apply (save_last_write_wins carol (set_isActive true carol) ∅).
  reflexivity.
Defined.

(** X3.  Saves of users with different ids do not interfere: in either
    order they leave the same map. *)
Theorem save_commutes (u1 u2 : User) (users : store)
    (Hid : id u1 ≠ id u2) :
  ((InMemoryUserRepository.save u1 ;; InMemoryUserRepository.save u2)
     users).2
  = ((InMemoryUserRepository.save u2 ;; InMemoryUserRepository.save u1)
       users).2.
Proof.
  unfold mbind, M_bind. rewrite !save_spec. simpl.
  by apply insert_insert_ne.
Qed.

Lemma save_commutes_witness :
  ((InMemoryUserRepository.save alice ;; InMemoryUserRepository.save bob)
     ∅).2
  = ((InMemoryUserRepository.save bob ;; InMemoryUserRepository.save alice)
       ∅).2.
Proof. apply (save_commutes alice bob ∅). discriminate. Defined.

(** X4.  [findById] never changes the map and never throws; it returns
    [nullptr] exactly when the id is absent, and otherwise a pointer to the
    record stored under that id. *)
Theorem findById_reads_only (k : string) (users : store) :
  ∃ p,
    InMemoryUserRepository.findById k users = (Return p, users)
    ∧ (p = None ↔ users !! k = None)
    ∧ ∀ u, users !! k = Some u → p = Some k ∧ deref k users = (Return u, users).
Proof.
  destruct (users !! k) as [u|] eqn:Hk.
  - exists (Some k). split; [by apply findById_Some with u|].
    split; [done|]. intros v [= <-]. split; [done|]. by apply deref_Some.
  - exists None. split; [by apply findById_None|]. done.
Qed.

(** ** Rendering through the service *)

Lemma getFormattedUserDetails_absent presenter users k format :
  users !! k = None →
  UserService.getFormattedUserDetails InMemoryUserRepository.impl presenter
    k format users
  = (Throw (not_found k), users).
Proof.
  intros Habsent.
  unfold UserService.getFormattedUserDetails, mbind, M_bind. simpl.
  by rewrite (findById_None _ _ Habsent).
Qed.

(** X5.  The id is looked up before the format is examined: for an id that
    the repository does not hold, [getFormattedUserDetails] throws
    [out_of_range] ("User with ID ", the id, " not found.") for every
    format, supported or not, and with every presenter; the map is as it
    was. *)
Theorem getFormattedUserDetails_unknown (presenter : IUserPresenter)
    (users : store) (k format : string) (Habsent : users !! k = None) :
  UserService.getFormattedUserDetails InMemoryUserRepository.impl presenter
    k format users
  = (Throw (not_found k), users).
Proof. by apply getFormattedUserDetails_absent. Qed.

Lemma getFormattedUserDetails_unknown_witness :
  UserService.getFormattedUserDetails InMemoryUserRepository.impl
    UserPresenterImpl.impl "u999" "xml" {[ "u124" := bob ]}
  = (Throw (not_found "u999"), {[ "u124" := bob ]}).
Proof.
  apply (getFormattedUserDetails_unknown UserPresenterImpl.impl
           {[ "u124" := bob ]} "u999" "xml").
  reflexivity.
Defined.

Lemma getFormattedUserDetails_reads_only_aux presenter users k format :
  (UserService.getFormattedUserDetails InMemoryUserRepository.impl presenter
     k format users).2
  = users.
Proof.
  destruct (users !! k) as [u|] eqn:Hk.
  - unfold UserService.getFormattedUserDetails, mbind, M_bind. simpl.
    rewrite (findById_Some _ _ _ Hk). unfold deref.
    by repeat case_bool_decide.
  - by rewrite (getFormattedUserDetails_absent _ _ _ _ Hk).
Qed.

(** X6.  [getFormattedUserDetails] is a read: for every presenter, id and
    format, whether it returns or throws, the map afterwards is the map
    before. *)
Theorem getFormattedUserDetails_reads_only (presenter : IUserPresenter)
    (users : store) (k format : string) :
  (UserService.getFormattedUserDetails InMemoryUserRepository.impl presenter
     k format users).2
  = users.
Proof. apply getFormattedUserDetails_reads_only_aux. Qed.

(** ** What the service keeps, with any validator *)

Lemma activateUser_generic_stored users k u :
  users !! k = Some u →
  UserService.activateUser InMemoryUserRepository.impl k users
  = (Return (set_isActive true u),
     <[id u := set_isActive true u]> (<[k := set_isActive true u]> users)).
Proof. apply activateUser_stored. Qed.

Lemma activateUser_kept_noop v users k :
  kept v users →
  (UserService.activateUser InMemoryUserRepository.impl k users).2 = users.
Proof.
  intros Hkept. destruct (users !! k) as [u|] eqn:Hk.
  - rewrite (activateUser_generic_stored _ _ _ Hk). simpl.
    destruct (Hkept _ _ Hk) as (Hid & Hact & _).
    rewrite (set_isActive_id _ Hact), Hid.
    by rewrite insert_insert_eq, insert_id.
  - pose proof (activateUser_absent _ _ Hk) as H.
    unfold userService.activateUser in H. by rewrite H.
Qed.

Lemma kept_serve_with v p users r :
  kept v users → kept v (serve_with v p users r).
Proof.
  intros Hkept. destruct r as [i n e|userId format|userId]; simpl.
  - unfold UserService.createUser, mbind, M_bind, lift.
    destruct (validate v (User_new i n e)) as [[]|x] eqn:Hv; [|done].
    simpl. intros k u. rewrite lookup_insert. case_decide as Hk.
    + by intros [= <-].
    + apply Hkept.
  - by rewrite getFormattedUserDetails_reads_only_aux.
  - by rewrite (activateUser_kept_noop v).
Qed.

Lemma kept_run_with v p rs : kept v (run_with v p rs).
Proof.
  unfold run_with.
  assert (kept v ∅) as Hempty by (intros k u H; by rewrite lookup_empty in H).
  revert Hempty. generalize (∅ : store).
  induction rs as [|r rs IH]; intros users Hkept; simpl; [done|].
  by apply IH, kept_serve_with.
Qed.

(** X7.  With any validator and any presenter, after any sequence of
    service calls on a repository that starts empty, every record is stored
    under its own id, is active, and is one that the validator accepts:
    [createUser] is the only call that adds a record, and it adds an active
    one after the validator returned. *)
Theorem stored_users_keyed_active_accepted (v : IUserValidator)
    (p : IUserPresenter) (rs : list request) (k : string) (u : User)
    (Hstored : run_with v p rs !! k = Some u) :
  id u = k ∧ isActive u = true ∧ validate v u = Return tt.
Proof. by apply (kept_run_with v p rs). Qed.

Lemma stored_users_keyed_active_accepted_witness :
  id dot_first = "u1" ∧ isActive dot_first = true
  ∧ validate accept_all dot_first = Return tt.
Proof.
  apply (stored_users_keyed_active_accepted accept_all UserPresenterImpl.impl
           [CreateUser "u1" "Bob" "a.b@c"; ActivateUser "u1";
            GetFormattedUserDetails "u1" "xml"]
           "u1" dot_first).
  vm_compute. reflexivity.
Defined.

(** X8.  On a repository that only the service has written to,
    [activateUser] changes nothing: every record there is already active,
    so for a stored id it returns the stored record and leaves the map as
    it was, and for an unknown id it throws and leaves the map as it was. *)
Theorem activateUser_changes_nothing (v : IUserValidator)
    (p : IUserPresenter) (rs : list request) (k : string) :
  (UserService.activateUser InMemoryUserRepository.impl k
     (run_with v p rs)).2
  = run_with v p rs
  ∧ ∀ u, run_with v p rs !! k = Some u →
      UserService.activateUser InMemoryUserRepository.impl k (run_with v p rs)
      = (Return u, run_with v p rs).
Proof.
  pose proof (kept_run_with v p rs) as Hkept. split.
  - by apply (activateUser_kept_noop v).
  - intros u Hk. destruct (Hkept _ _ Hk) as (Hid & Hact & _).
    rewrite (activateUser_generic_stored _ _ _ Hk).
    rewrite (set_isActive_id _ Hact), Hid.
    by rewrite insert_insert_eq, insert_id.
Qed.

(** X9.  For a record stored under its own id, active or not,
    [activateUser] returns it with [isActive = true] and the same id, name
    and email, stores that in its place, and leaves every other record as
    it was. *)
Theorem activateUser_activates (users : store) (k : string) (u : User)
    (Hstored : users !! k = Some u) (Hkey : id u = k) :
  ∃ u' users',
    userService.activateUser k users = (Return u', users')
    ∧ u' = mkUser (id u) (name u) (email u) true
    ∧ users' !! k = Some u'
    ∧ ∀ j, j ≠ k → users' !! j = users !! j.
Proof.
  exists (set_isActive true u), (<[k := set_isActive true u]> users).
  split; [|split; [done|split]].
  - rewrite (activateUser_stored _ _ _ Hstored), Hkey.
    by rewrite insert_insert_eq.
  - apply lookup_insert_eq.
  - intros j Hj. by apply lookup_insert_ne.
Qed.

Lemma activateUser_activates_witness :
  ∃ u' users',
    userService.activateUser "u126" {[ "u126" := carol ]}
    = (Return u', users')
    ∧ u' = mkUser (id carol) (name carol) (email carol) true
    ∧ users' !! "u126" = Some u'
    ∧ ∀ j, j ≠ "u126" → users' !! j = ({[ "u126" := carol ]} : store) !! j.
Proof.
  apply (activateUser_activates {[ "u126" := carol ]} "u126" carol);
    reflexivity.
Defined.

(** X10.  [createUser] is idempotent, with any validator: a second call with
    the same arguments has the outcome of the first and leaves the map that
    the first left. *)
Theorem createUser_idempotent (v : IUserValidator) (i n e : string)
    (users : store) :
  UserService.createUser InMemoryUserRepository.impl v i n e
    (UserService.createUser InMemoryUserRepository.impl v i n e users).2
  = UserService.createUser InMemoryUserRepository.impl v i n e users.
Proof.
  unfold UserService.createUser, mbind, M_bind, lift.
  destruct (validate v (User_new i n e)) as [[]|x]; [|done].
  change (save InMemoryUserRepository.impl) with InMemoryUserRepository.save.
  rewrite !save_spec. simpl. by rewrite insert_insert_eq.
Qed.

(** X11.  Creating then rendering: after [createUser] of a pair that the
    validator accepts, [getFormattedUserDetails] of the same id returns, for
    "console", the four lines of the new user ending in "Status: Active",
    and for "json" the object text whose last member is active:true. *)
Theorem createUser_then_render (i n e : string) (users : store)
    (Hname : n ≠ "") (Hat : contains "@" e) (Hdot : contains "." e) :
  (userService.createUser i n e ;;
   userService.getFormattedUserDetails i "console") users
  = (Return ("User ID: " +:+ i +:+ LF +:+ "Name: " +:+ n +:+ LF
               +:+ "Email: " +:+ e +:+ LF +:+ "Status: Active"),
     <[i := mkUser i n e true]> users)
  ∧ (userService.createUser i n e ;;
     userService.getFormattedUserDetails i "json") users
    = (Return ("{" +:+ DQ +:+ "id" +:+ DQ +:+ ":" +:+ DQ +:+ i +:+ DQ
                 +:+ ", " +:+ DQ +:+ "name" +:+ DQ +:+ ":" +:+ DQ +:+ n +:+ DQ
                 +:+ ", " +:+ DQ +:+ "email" +:+ DQ +:+ ":" +:+ DQ +:+ e
                 +:+ DQ +:+ ", " +:+ DQ +:+ "active" +:+ DQ +:+ ":true}"),
       <[i := mkUser i n e true]> users).
Proof.
  assert (UserValidatorImpl.validate (User_new i n e) = Return tt) as Hv
    by by apply validate_ok.
  unfold mbind, M_bind.
  rewrite (createUser_accepted _ _ _ _ Hv).
  rewrite !(getFormattedUserDetails_stored _ i (User_new i n e))
    by apply lookup_insert_eq.
  done.
Qed.

Lemma createUser_then_render_witness :
  (userService.createUser "u124" "Bob The Builder" "bob@example.net" ;;
   userService.getFormattedUserDetails "u124" "console") ∅
  = (Return ("User ID: " +:+ "u124" +:+ LF +:+ "Name: " +:+ "Bob The Builder"
               +:+ LF +:+ "Email: " +:+ "bob@example.net" +:+ LF
               +:+ "Status: Active"),
     <["u124" := mkUser "u124" "Bob The Builder" "bob@example.net" true]> ∅)
  ∧ (userService.createUser "u124" "Bob The Builder" "bob@example.net" ;;
     userService.getFormattedUserDetails "u124" "json") ∅
    = (Return ("{" +:+ DQ +:+ "id" +:+ DQ +:+ ":" +:+ DQ +:+ "u124" +:+ DQ
                 +:+ ", " +:+ DQ +:+ "name" +:+ DQ +:+ ":" +:+ DQ
                 +:+ "Bob The Builder" +:+ DQ
                 +:+ ", " +:+ DQ +:+ "email" +:+ DQ +:+ ":" +:+ DQ
                 +:+ "bob@example.net"
                 +:+ DQ +:+ ", " +:+ DQ +:+ "active" +:+ DQ +:+ ":true}"),
       <["u124" := mkUser "u124" "Bob The Builder" "bob@example.net" true]> ∅).
Proof.
  apply (createUser_then_render "u124" "Bob The Builder" "bob@example.net" ∅).
  - discriminate.
  - by exists "bob", "example.net".
  - by exists "bob@example", "net".
Defined.

(** ** Calls about one id and the records of the others *)

(** X12.  In a repository whose records are each stored under their own
    id, a service call about one id, whatever its outcome, leaves the
    record of every other id exactly as it was (and an absent one
    absent). *)
Theorem serve_other_ids_untouched (v : IUserValidator) (p : IUserPresenter)
    (users : store) (r : request) (k : string)
    (Hkeyed : keyed users) (Hother : target r ≠ k) :
  serve_with v p users r !! k = users !! k.
Proof.
  destruct r as [i n e|userId format|userId]; simpl in *.
  - unfold UserService.createUser, mbind, M_bind, lift.
    destruct (validate v (User_new i n e)) as [[]|x]; [|done].
    simpl. by apply lookup_insert_ne.
  - by rewrite getFormattedUserDetails_reads_only_aux.
  - destruct (users !! userId) as [u|] eqn:Hu.
    + rewrite (activateUser_generic_stored _ _ _ Hu). simpl.
      rewrite (Hkeyed _ _ Hu). by rewrite !lookup_insert_ne.
    + pose proof (activateUser_absent _ _ Hu) as H.
      unfold userService.activateUser in H. by rewrite H.
Qed.

Lemma serve_other_ids_untouched_witness :
  serve_with UserValidatorImpl.impl UserPresenterImpl.impl
    {[ "u126" := carol ]} (CreateUser "u124" "Bob The Builder" "bob@example.net")
    !! "u126"
  = ({[ "u126" := carol ]} : store) !! "u126".
Proof.
  apply (serve_other_ids_untouched UserValidatorImpl.impl
           UserPresenterImpl.impl {[ "u126" := carol ]}
           (CreateUser "u124" "Bob The Builder" "bob@example.net") "u126").
  - intros k u. rewrite lookup_singleton. case_decide as Hk; [|done].
    intros [= <-]. by rewrite <- Hk.
  - discriminate.
Defined.

(** X13.  No service call removes a record: with any validator and
    presenter and on any repository content, an id that is stored before a
    call is stored after it, whether the call returned or threw. *)
Theorem serve_never_removes (v : IUserValidator) (p : IUserPresenter)
    (users : store) (r : request) (k : string)
    (Hstored : is_Some (users !! k)) :
  is_Some (serve_with v p users r !! k).
Proof.
  destruct r as [i n e|userId format|userId]; simpl.
  - unfold UserService.createUser, mbind, M_bind, lift.
    destruct (validate v (User_new i n e)) as [[]|x]; [|done].
    simpl. rewrite lookup_insert. by case_decide.
  - by rewrite getFormattedUserDetails_reads_only_aux.
  - destruct (users !! userId) as [u|] eqn:Hu.
    + rewrite (activateUser_generic_stored _ _ _ Hu). simpl.
      rewrite !lookup_insert. by repeat case_decide.
    + pose proof (activateUser_absent _ _ Hu) as H.
      unfold userService.activateUser in H. by rewrite H.
Qed.

Lemma serve_never_removes_witness :
  is_Some (serve_with UserValidatorImpl.impl UserPresenterImpl.impl
             {[ "u124" := bob ]} (CreateUser "u124" "" "invalid") !! "u124").
Proof.
  apply (serve_never_removes UserValidatorImpl.impl UserPresenterImpl.impl
           {[ "u124" := bob ]} (CreateUser "u124" "" "invalid") "u124").
  by exists bob.
Defined.

(** ** The monolithic class and the layered one *)

(** X14.  [BadUser::isValid] returns true exactly when the name is not
    empty and the email contains an "@". *)
Theorem BadUser_isValid_spec (this : BadUser.BadUser) :
  BadUser.isValid this = true
  ↔ BadUser.name this ≠ "" ∧ contains "@" (BadUser.email this).
Proof.
  unfold BadUser.isValid.
  destruct (empty (BadUser.name this)) eqn:E.
  { apply empty_spec in E. split; [done|]. by intros [? _]. }
  assert (BadUser.name this ≠ "") as Hn by (intros H; by rewrite H in E).
  case_bool_decide as Hf.
  - split; [done|]. intros [_ H]. by apply not_contains in Hf.
  - split; [|done]. intros _. split; [done|]. by apply find_contains.
Qed.

(** X15.  The validator of the layered design is the check of the
    monolithic class made stricter by one condition: it accepts a user
    exactly when [BadUser::isValid] holds of the same fields and the email
    also contains a ".". *)
Theorem validate_refines_isValid (u : User) :
  UserValidatorImpl.validate u = Return tt
  ↔ BadUser.isValid (BadUser_of u) = true ∧ contains "." (email u).
Proof.
  rewrite validate_ok, BadUser_isValid_spec. simpl. tauto.
Qed.

(** ** The renderings identify the user *)

Lemma append_sep_inj c a b x y :
  containsb c a = false → containsb c b = false →
  a +:+ String c x = b +:+ String c y → a = b ∧ x = y.
Proof.
  revert b. induction a as [|d a IH]; intros [|d' b]; simpl.
  - by intros _ _ [= ->].
  - intros _ [E _]%orb_false_elim [= <- _]. by rewrite Ascii.eqb_refl in E.
  - intros [E _]%orb_false_elim _ [= -> _]. by rewrite Ascii.eqb_refl in E.
  - intros [_ Ha]%orb_false_elim [_ Hb]%orb_false_elim [= <- H].
    destruct (IH _ Ha Hb H) as [-> ->]. done.
Qed.

Lemma line_free_fields u :
  line_free u = true →
  containsb lf (id u) = false ∧ containsb lf (name u) = false
  ∧ containsb lf (email u) = false.
Proof.
  unfold line_free.
  intros [[H1 H2]%andb_prop H3]%andb_prop.
  by apply negb_true_iff in H1, H2, H3.
Qed.

(** X16.  The console rendering loses nothing of a user whose id, name and
    email hold no line feed: two such users with the same console text are
    equal in every field. *)
Theorem formatForConsole_injective (u v : User)
    (Hu : line_free u = true) (Hv : line_free v = true)
    (Hsame : UserPresenterImpl.formatForConsole u
             = UserPresenterImpl.formatForConsole v) :
  u = v.
Proof.
  apply line_free_fields in Hu as (Hi & Hn & He).
  apply line_free_fields in Hv as (Hi' & Hn' & He').
  destruct u as [i n e a], v as [i' n' e' a']. simpl in *.
  unfold UserPresenterImpl.formatForConsole in Hsame. simpl in Hsame.
  injection Hsame as Hsame.
  apply append_sep_inj in Hsame as [-> Hsame]; [|done..].
  injection Hsame as Hsame.
  apply append_sep_inj in Hsame as [-> Hsame]; [|done..].
  injection Hsame as Hsame.
  apply append_sep_inj in Hsame as [-> Hsame]; [|done..].
  by destruct a, a'.
Qed.

Lemma formatForConsole_injective_witness : bob = bob.
Proof. apply (formatForConsole_injective bob bob); reflexivity. Defined.

(** X17.  The JSON rendering loses nothing of a user whose id, name and
    email hold no double quote, backslash or control character: two such
    users with the same JSON text are equal in every field. *)
Theorem formatForJson_injective (u v : User)
    (Hu : plain_user u = true) (Hv : plain_user v = true)
    (Hsame : UserPresenterImpl.formatForJson u
             = UserPresenterImpl.formatForJson v) :
  u = v.
Proof.
  unfold plain_user in Hu, Hv.
  apply andb_prop in Hu as [[Hi Hn]%andb_prop He].
  apply andb_prop in Hv as [[Hi' Hn']%andb_prop He'].
  pose proof (read_object_formatForJson u Hi Hn He) as Pu.
  pose proof (read_object_formatForJson v Hi' Hn' He') as Pv.
  rewrite Hsame, Pv in Pu.
  destruct u, v. unfold Json.of_user in Pu. simpl in Pu.
  by injection Pu as -> -> -> ->.
Qed.

Lemma formatForJson_injective_witness : alice = alice.
Proof. apply (formatForJson_injective alice alice); reflexivity. Defined.

(** X18.  Without that condition the JSON rendering does not identify the
    user: since no field is escaped, there are two users, different in id
    and name and both accepted by the validator, with the same JSON
    text. *)
Theorem formatForJson_not_injective :
  ∃ u v : User,
    u ≠ v
    ∧ UserValidatorImpl.validate u = Return tt
    ∧ UserValidatorImpl.validate v = Return tt
    ∧ UserPresenterImpl.formatForJson u = UserPresenterImpl.formatForJson v.
Proof.
  exists (mkUser ("a" +:+ DQ +:+ ", " +:+ DQ +:+ "name" +:+ DQ +:+ ":" +:+ DQ
                    +:+ "b")
            "c" "x@y.z" true),
         (mkUser "a"
            ("b" +:+ DQ +:+ ", " +:+ DQ +:+ "name" +:+ DQ +:+ ":" +:+ DQ
               +:+ "c")
            "x@y.z" true).
  split; [discriminate|].
  split; [reflexivity|]. split; [reflexivity|].
  vm_compute. reflexivity.
Qed.
